(** * Amortization engine of the EMI calculator (src/utils/calculator.ts)

    A shallow embedding of [calculateEMI] and [generateAmortizationSchedule],
    and of their callers in src/App.tsx: [validateInputs],
    [handleCalculate], [handlePrepaymentChange] and [chartData].

    Two embeddings of the same code.
    - Exact: a JavaScript [number] that holds an amount or a rate is a
      rational [Q] with the field operations and the order of [Q];
      equalities between amounts are stated with [==] ([Qeq]).  This
      embedding carries the properties that rest on the control flow,
      the comparisons and the monotonicity of the steps.
    - Doubles (module [Double]): a [number] is an IEEE-754 binary64
      value, a [spec_float] with the correctly rounded operations of
      the Standard Library's specification, with NaN, the infinities
      and both zeros.  [Math.pow] is a parameter.  This embedding
      carries the properties that rounding decides, and the inputs on
      which a statement of exact arithmetic fails in the code.

    In both, [tenureInMonths] and [month] are integers ([Z]); the
    caller passes [Math.round] of the user's input.  In the exact
    embedding [Math.pow x n] at an integer [n] is [Qpower x n].
    [Prepayments = Record<number, number>] is a finite map keyed by
    [Z]; [prepayments[month] || 0] is the lookup with default [0].  The
    [for] loop runs on a fuel argument initialised to
    [Z.to_nat tenureInMonths]; the loop keeps its own test
    [month <= tenureInMonths] and [loop_fuel_enough] shows that the fuel
    never cuts it short. *)

From Stdlib Require Import ZArith QArith Qminmax Qpower Qfield Qround Lia Lqa.
From Stdlib Require Import SpecFloat.
From stdpp Require Import gmap strings.

Local Open Scope Q_scope.

(** ** Numbers *)

(** [x < y] on numbers, as a boolean. *)
Definition Qlt_bool (x y : Q) : bool := negb (Qle_bool y x).

(** [Math.min] and [Math.max] on two numbers. *)
Definition Math_min (x y : Q) : Q := Qmin x y.
Definition Math_max (x y : Q) : Q := Qmax x y.

(** The balance threshold of the loop test, [0.01]. *)
Definition epsilon : Q := 1 # 100.

(** ** Data model (src/types.ts, declared at the end of App.tsx) *)

Record AmortizationData : Type := mkRow {
  month : Z;
  openingBalance : Q;
  interest : Q;
  principal : Q;
  prepayment : Q;
  totalPayment : Q;
  closingBalance : Q
}.

(** ** calculateEMI *)

Definition calculateEMI (principal annualRate : Q) (tenureInMonths : Z) : Q :=
  if Qle_bool principal 0 || (tenureInMonths <=? 0)%Z then 0
  else if Qle_bool annualRate 0 then principal / inject_Z tenureInMonths
  else
    let monthlyRate := annualRate / 12 / 100 in
    let emi :=
      (principal * monthlyRate * (1 + monthlyRate) ^ tenureInMonths) /
      ((1 + monthlyRate) ^ tenureInMonths - 1) in
    emi.

(** ** generateAmortizationSchedule *)

Section Loop.

Variables (monthlyRate baseEMI : Q) (tenureInMonths : Z).
Variable prepayments : gmap Z Q.

(** [prepayments[month] || 0]: an absent key and a zero amount both
    give [0]. *)
Definition requested (month : Z) : Q := default 0 (prepayments !! month).

(** One pass through the loop body at [month] with the running
    [remainingBalance]: the row that is pushed and the value assigned to
    [remainingBalance] (the local [closingBalance], before the
    [Math.max] of the record). *)
Definition loop_body (month : Z) (remainingBalance : Q)
  : AmortizationData * Q :=
  let openingBalance := remainingBalance in
  let interest := openingBalance * monthlyRate in
  let principalPaid := Math_min (baseEMI - interest) openingBalance in
  let principalPaid :=
    if Qlt_bool principalPaid 0 then 0 else principalPaid in
  let prepayment := requested month in
  let closingBalance := openingBalance - principalPaid - prepayment in
  let '(actualPrepayment, closingBalance) :=
    if Qlt_bool closingBalance 0
    then (prepayment + closingBalance, 0)
    else (prepayment, closingBalance) in
  let totalPayment := interest + principalPaid + actualPrepayment in
  (mkRow month
         openingBalance
         (Math_max 0 interest)
         (Math_max 0 principalPaid)
         (Math_max 0 actualPrepayment)
         (Math_max 0 totalPayment)
         (Math_max 0 closingBalance),
   closingBalance).

(** [for (month; month <= tenureInMonths && remainingBalance > 0.01;
    month++)], collecting the pushed rows in order. *)
Fixpoint loop (fuel : nat) (month : Z) (remainingBalance : Q)
  : list AmortizationData :=
  match fuel with
  | O => []
  | S fuel' =>
      if (month <=? tenureInMonths)%Z && Qlt_bool epsilon remainingBalance
      then
        let '(row, closing) := loop_body month remainingBalance in
        row :: loop fuel' (month + 1)%Z closing
      else []
  end.

End Loop.

Definition generateAmortizationSchedule
    (principal annualRate : Q) (tenureInMonths : Z)
    (prepayments : gmap Z Q) : list AmortizationData :=
  if Qle_bool principal 0 || (tenureInMonths <=? 0)%Z then []
  else
    let remainingBalance := principal in
    let monthlyRate :=
      if Qlt_bool 0 annualRate then annualRate / 12 / 100 else 0 in
    let baseEMI := calculateEMI principal annualRate tenureInMonths in
    loop monthlyRate baseEMI tenureInMonths prepayments
         (Z.to_nat tenureInMonths) 1%Z remainingBalance.


(** ** Auxiliary definitions used in the statements *)

(** The monthly rate the generator works with,
    [annualRate > 0 ? annualRate / 12 / 100 : 0]. *)
Definition monthlyRateOf (annualRate : Q) : Q :=
  if Qlt_bool 0 annualRate then annualRate / 12 / 100 else 0.

(** The row identity of the data model. *)
Definition row_balanced (row : AmortizationData) : Prop :=
  closingBalance row == openingBalance row - principal row - prepayment row
  /\ 0 <= closingBalance row.

(** Conditions on the amounts of a prepayment map. *)
Definition positive_amounts (prepayments : gmap Z Q) : Prop :=
  map_Forall (fun _ v => 0 < v) prepayments.

Definition nonneg_amounts (prepayments : gmap Z Q) : Prop :=
  map_Forall (fun _ v => 0 <= v) prepayments.


(** ** The caller's totals (src/App.tsx, handleCalculate) *)

(** [calculatedSchedule.reduce((acc, curr) => acc + curr.totalPayment, 0)]
    and the same reduction over [curr.interest]. *)
Definition sum_totalPayment (calculatedSchedule : list AmortizationData) : Q :=
  foldl (fun acc curr => acc + totalPayment curr) 0 calculatedSchedule.

Definition sum_interest (calculatedSchedule : list AmortizationData) : Q :=
  foldl (fun acc curr => acc + interest curr) 0 calculatedSchedule.

(** Every recorded amount of a row is non-negative and the row opens
    above the threshold of the loop test. *)
Definition row_nonneg (row : AmortizationData) : Prop :=
  epsilon < openingBalance row /\
  0 <= interest row /\ 0 <= principal row /\ 0 <= prepayment row /\
  0 <= totalPayment row /\ 0 <= closingBalance row.

(** ** The caller (src/App.tsx)

    The handlers are React closures over state; each is embedded as
    the pure function it computes.  The strings typed by the user enter
    through [parseFloat]: [p], [r] and [t] below are the numbers
    [parseFloat(...) || 0], and the [newAmount] of
    [handlePrepaymentChange] is [None] when [parseFloat] gives NaN. *)

Inductive TenureUnit : Type := years | months.

(** [Math.round]: the nearest integer, halves towards plus infinity. *)
Definition Math_round (x : Q) : Z := Qfloor (x + (1 # 2)).

(** [if (cond) newErrors.key = message]. *)
Definition set_error (cond : bool) (key message : string)
    (newErrors : gmap string string) : gmap string string :=
  if cond then <[key := message]> newErrors else newErrors.

(** The [newErrors] object that validateInputs builds. *)
Definition validation_errors (tenureUnit : TenureUnit) (p r t : Q)
  : gmap string string :=
  let newErrors : gmap string string := ∅ in
  let newErrors :=
    set_error (Qle_bool p 0)
      "loanAmount" "Loan amount must be greater than 0" newErrors in
  let newErrors :=
    set_error (Qlt_bool 100000000 p)
      "loanAmount" "Loan amount cannot exceed 100 million" newErrors in
  let newErrors :=
    set_error (Qlt_bool r 0)
      "interestRate" "Interest rate cannot be negative" newErrors in
  let newErrors :=
    set_error (Qlt_bool 50 r)
      "interestRate" "Interest rate cannot exceed 50%" newErrors in
  let newErrors :=
    set_error (Qle_bool t 0)
      "tenure" "Tenure must be greater than 0" newErrors in
  let newErrors :=
    set_error (match tenureUnit with years => Qlt_bool 50 t | months => false end)
      "tenure" "Tenure cannot exceed 50 years" newErrors in
  let newErrors :=
    set_error (match tenureUnit with months => Qlt_bool 600 t | years => false end)
      "tenure" "Tenure cannot exceed 600 months" newErrors in
  newErrors.

(** [return Object.keys(newErrors).length === 0]. *)
Definition validateInputs (tenureUnit : TenureUnit) (p r t : Q) : bool :=
  Nat.eqb (size (validation_errors tenureUnit p r t)) 0.

Module EMIDetails.
Record t : Type := mk {
  emi : Q;
  totalInterest : Q;
  totalPayment : Q;
  principal : Q;
  actualTenure : option nat
}.
End EMIDetails.

(** What a call of handleCalculate does to the displayed state. *)
Inductive Outcome : Type :=
| Cleared             (* setEmiDetails(null); setSchedule([]) *)
| LoanAmountCapped    (* setLoanAmount('100000000') *)
| InterestRateCapped  (* setInterestRate('50') *)
| Unchanged           (* returns with details and schedule as they were *)
| Shown (details : EMIDetails.t) (schedule : list AmortizationData).

(** The tenure in months that handleCalculate passes on. *)
Definition tenure_months (tenureUnit : TenureUnit) (t : Q) : Z :=
  match tenureUnit with
  | years => Math_round (t * 12)
  | months => Math_round t
  end.

Definition handleCalculate (tenureUnit : TenureUnit) (p r t : Q)
    (prepayments : gmap Z Q) : Outcome :=
  if negb (validateInputs tenureUnit p r t) then Cleared
  else if Qle_bool p 0 || Qle_bool t 0 || Qlt_bool r 0 then Cleared
  else if Qlt_bool 100000000 p then LoanAmountCapped
  else if Qlt_bool 50 r then InterestRateCapped
  else
    let n := tenure_months tenureUnit t in
    if (n <=? 0)%Z || (600 <? n)%Z then Unchanged
    else
      let calculatedSchedule :=
        generateAmortizationSchedule p r n prepayments in
      if Nat.eqb (length calculatedSchedule) 0 then Unchanged
      else
        let totalPayment := sum_totalPayment calculatedSchedule in
        let totalInterest := sum_interest calculatedSchedule in
        let actualTenure := length calculatedSchedule in
        Shown (EMIDetails.mk (calculateEMI p r n) totalInterest totalPayment
                             p (Some actualTenure))
              calculatedSchedule.

Definition is_Shown (o : Outcome) : bool :=
  match o with Shown _ _ => true | _ => false end.

(** The state update of handlePrepaymentChange: a copy of [prev] with
    the entry of [month] set to a positive amount, or deleted. *)
Definition handlePrepaymentChange (month : Z) (newAmount : option Q)
    (prev : gmap Z Q) : gmap Z Q :=
  let newPrepayments := prev in
  match newAmount with
  | Some amount =>
      if Qlt_bool 0 amount
      then <[month := amount]> newPrepayments
      else delete month newPrepayments
  | None => delete month newPrepayments
  end.

(** The prepayment map after a series of edits, from the initial [{}]. *)
Definition prepayments_after (edits : list (Z * option Q)) : gmap Z Q :=
  foldl (fun prev edit => handlePrepaymentChange edit.1 edit.2 prev) ∅ edits.

(** A point of the chart. *)
Module ChartPoint.
Record t : Type := mk {
  month : Z;
  Principal : Q;
  Interest : Q;
  Closing_Balance : Q
}.
End ChartPoint.

Definition maxDataPoints : nat := 240.

(** [Math.ceil(a / b)] on natural numbers, [b > 0]. *)
Definition ceil_div (a b : nat) : nat := ((a + b - 1) / b)%nat.

(** [l.filter((_, index) => keep(index))], counting from [index]. *)
Fixpoint filter_index {A : Type} (keep : nat -> bool) (index : nat)
    (l : list A) : list A :=
  match l with
  | [] => []
  | x :: l' =>
      if keep index then x :: filter_index keep (S index) l'
      else filter_index keep (S index) l'
  end.

Definition chart_point (item : AmortizationData) : ChartPoint.t :=
  ChartPoint.mk (month item) (principal item + prepayment item)
                (interest item) (closingBalance item).

Definition chartData (schedule : list AmortizationData)
  : list ChartPoint.t :=
  if Nat.eqb (length schedule) 0 then []
  else
    let dataToShow :=
      if (maxDataPoints <? length schedule)%nat
      then filter_index
             (fun index =>
                (index mod ceil_div (length schedule) maxDataPoints =? 0)%nat)
             0 schedule
      else schedule in
    map chart_point dataToShow.

(** ** The same code over IEEE-754 doubles

    A JavaScript [number] is a binary64 value: here a [spec_float] with
    the operations of the Standard Library's specification of
    floating-point arithmetic at precision 53 and maximal exponent
    1024, rounding to nearest even.  Nothing is assumed about
    [Math.pow], which ECMAScript leaves implementation-approximated: it
    is a parameter of [calculateEMI] and of the generator. *)

Module Double.

Definition prec : Z := 53%Z.
Definition emax : Z := 1024%Z.

Definition add : spec_float -> spec_float -> spec_float := SFadd prec emax.
Definition sub : spec_float -> spec_float -> spec_float := SFsub prec emax.
Definition mul : spec_float -> spec_float -> spec_float := SFmul prec emax.
Definition div : spec_float -> spec_float -> spec_float := SFdiv prec emax.

(** The double of an integer literal or counter (exact below 2^53). *)
Definition of_Z (z : Z) : spec_float := binary_normalize prec emax z 0 false.

Definition zero : spec_float := S754_zero false.

(** The literal [0.01]: the double nearest to 1/100. *)
Definition epsilon : spec_float := div (of_Z 1) (of_Z 100).

(** Falsy numbers of [x || 0]: both zeros and NaN. *)
Definition is_falsy (x : spec_float) : bool :=
  match x with
  | S754_zero _ | S754_nan => true
  | _ => false
  end.

(** [Math.min] and [Math.max] on two numbers: NaN if either is NaN, and
    -0 counts as smaller than +0. *)
Definition Math_min (x y : spec_float) : spec_float :=
  match x, y with
  | S754_nan, _ | _, S754_nan => S754_nan
  | _, _ =>
      if SFltb x y then x
      else if SFltb y x then y
      else match x with S754_zero false => y | _ => x end
  end.

Definition Math_max (x y : spec_float) : spec_float :=
  match x, y with
  | S754_nan, _ | _, S754_nan => S754_nan
  | _, _ =>
      if SFltb x y then y
      else if SFltb y x then x
      else match x with S754_zero true => y | _ => x end
  end.

Record AmortizationData : Type := mkRow {
  month : Z;
  openingBalance : spec_float;
  interest : spec_float;
  principal : spec_float;
  prepayment : spec_float;
  totalPayment : spec_float;
  closingBalance : spec_float
}.

(** [prepayments[month] || 0]. *)
Definition requested (prepayments : gmap Z spec_float) (month : Z)
  : spec_float :=
  match prepayments !! month with
  | Some amount => if is_falsy amount then zero else amount
  | None => zero
  end.

Section WithPow.

Variable Math_pow : spec_float -> Z -> spec_float.

Definition calculateEMI (principal annualRate : spec_float)
    (tenureInMonths : Z) : spec_float :=
  if SFleb principal zero || (tenureInMonths <=? 0)%Z then zero
  else if SFleb annualRate zero then div principal (of_Z tenureInMonths)
  else
    let monthlyRate := div (div annualRate (of_Z 12)) (of_Z 100) in
    let emi :=
      div (mul (mul principal monthlyRate)
               (Math_pow (add (of_Z 1) monthlyRate) tenureInMonths))
          (sub (Math_pow (add (of_Z 1) monthlyRate) tenureInMonths)
               (of_Z 1)) in
    emi.

Section Loop.

Variables (monthlyRate baseEMI : spec_float) (tenureInMonths : Z).
Variable prepayments : gmap Z spec_float.

Definition loop_body (month : Z) (remainingBalance : spec_float)
  : AmortizationData * spec_float :=
  let openingBalance := remainingBalance in
  let interest := mul openingBalance monthlyRate in
  let principalPaid := Math_min (sub baseEMI interest) openingBalance in
  let principalPaid :=
    if SFltb principalPaid zero then zero else principalPaid in
  let prepayment := requested prepayments month in
  let closingBalance := sub (sub openingBalance principalPaid) prepayment in
  let '(actualPrepayment, closingBalance) :=
    if SFltb closingBalance zero
    then (add prepayment closingBalance, zero)
    else (prepayment, closingBalance) in
  let totalPayment := add (add interest principalPaid) actualPrepayment in
  (mkRow month
         openingBalance
         (Math_max zero interest)
         (Math_max zero principalPaid)
         (Math_max zero actualPrepayment)
         (Math_max zero totalPayment)
         (Math_max zero closingBalance),
   closingBalance).

Fixpoint loop (fuel : nat) (month : Z) (remainingBalance : spec_float)
  : list AmortizationData :=
  match fuel with
  | O => []
  | S fuel' =>
      if (month <=? tenureInMonths)%Z && SFltb epsilon remainingBalance
      then
        let '(row, closing) := loop_body month remainingBalance in
        row :: loop fuel' (month + 1)%Z closing
      else []
  end.

End Loop.

Definition generateAmortizationSchedule
    (principal annualRate : spec_float) (tenureInMonths : Z)
    (prepayments : gmap Z spec_float) : list AmortizationData :=
  if SFleb principal zero || (tenureInMonths <=? 0)%Z then []
  else
    let remainingBalance := principal in
    let monthlyRate :=
      if SFltb zero annualRate
      then div (div annualRate (of_Z 12)) (of_Z 100) else zero in
    let baseEMI := calculateEMI principal annualRate tenureInMonths in
    loop monthlyRate baseEMI tenureInMonths prepayments
         (Z.to_nat tenureInMonths) 1%Z remainingBalance.

End WithPow.

(** A [Math.pow] for integer exponents by repeated multiplication.  It
    is used only at powers that are exactly representable (base 1 or
    2), where every implementation returns the same double. *)
Definition pow_mul (x : spec_float) (n : Z) : spec_float :=
  match n with
  | Z0 => of_Z 1
  | Zpos p => Pos.iter (fun acc => mul acc x) (of_Z 1) p
  | Zneg p => div (of_Z 1) (Pos.iter (fun acc => mul acc x) (of_Z 1) p)
  end.

(** Closing balance of the last row, or [start] for no row. *)
Definition last_closing (start : spec_float) (rows : list AmortizationData)
  : spec_float :=
  match last rows with
  | Some row => closingBalance row
  | None => start
  end.

(** Equal as numbers: the same value, or two zeros of either sign. *)
Definition same_number (x y : spec_float) : Prop :=
  x = y \/ exists s s', x = S754_zero s /\ y = S754_zero s'.

Definition positive_amounts (prepayments : gmap Z spec_float) : Prop :=
  map_Forall (fun _ amount => SFltb zero amount = true) prepayments.

(** The balance of a row on its recorded values.  [room] is what is
    left after the scheduled principal and [asked] the amount of
    [prepayments[month] || 0].  Without the clamp of lines 50-53 the row
    closes at [room - prepayment]; with it the row closes at 0 and
    records the rounded [asked + (room - asked)]. *)
Definition row_balanced (prepayments : gmap Z spec_float)
    (row : AmortizationData) : Prop :=
  let room := sub (openingBalance row) (principal row) in
  let asked := requested prepayments (month row) in
  SFltb (closingBalance row) zero = false /\
  (SFltb (sub room asked) zero = false ->
   prepayment row = asked /\
   same_number (closingBalance row) (sub room (prepayment row))) /\
  (SFltb (sub room asked) zero = true ->
   closingBalance row = zero /\
   prepayment row = Math_max zero (add asked (sub room asked))).


(** No recorded amount of a row is negative, and the row opens above
    the threshold. *)
Definition row_nonneg (row : AmortizationData) : Prop :=
  SFltb epsilon (openingBalance row) = true /\
  SFltb (interest row) zero = false /\
  SFltb (principal row) zero = false /\
  SFltb (prepayment row) zero = false /\
  SFltb (totalPayment row) zero = false /\
  SFltb (closingBalance row) zero = false.

(** The monthly rate the generator works with. *)
Definition monthlyRateOf (annualRate : spec_float) : spec_float :=
  if SFltb zero annualRate
  then div (div annualRate (of_Z 12)) (of_Z 100) else zero.

End Double.

(** ** Numbers: comparison and clamping lemmas *)

Lemma Qlt_bool_true x y : Qlt_bool x y = true <-> x < y.
Proof.
  unfold Qlt_bool. rewrite negb_true_iff.
  destruct (Qle_bool y x) eqn:E.
  - apply Qle_bool_iff in E. split; [discriminate | intros H; exfalso; lra].
  - split; [intros _ | reflexivity].
    destruct (Qlt_le_dec x y) as [H | H]; [exact H |].
    apply Qle_bool_iff in H. congruence.
Qed.

Lemma Qlt_bool_false x y : Qlt_bool x y = false <-> y <= x.
Proof.
  destruct (Qlt_bool x y) eqn:E.
  - apply Qlt_bool_true in E. split; [discriminate | intros H; exfalso; lra].
  - split; [intros _ | reflexivity].
    destruct (Qlt_le_dec x y) as [H | H]; [| exact H].
    apply Qlt_bool_true in H. congruence.
Qed.

Lemma Qle_bool_false x y : Qle_bool x y = false <-> y < x.
Proof.
  pose proof (Qlt_bool_true y x) as H. unfold Qlt_bool in H.
  rewrite negb_true_iff in H. exact H.
Qed.

Lemma Math_max_0_nonneg x : 0 <= x -> Math_max 0 x == x.
Proof. intros H. unfold Math_max. apply Q.max_r, H. Qed.

Lemma Math_max_0_neg x : x <= 0 -> Math_max 0 x == 0.
Proof. intros H. unfold Math_max. apply Q.max_l, H. Qed.

Lemma Math_min_cases x y :
  (x <= y /\ Math_min x y == x) \/ (y <= x /\ Math_min x y == y).
Proof.
  unfold Math_min.
  destruct (Q.min_spec x y) as [[H E] | [H E]]; [left | right];
    (split; [lra | exact E]).
Qed.


(** Case analysis on every comparison and clamp in the goal, leaving
    goals over the order of [Q]. *)
Ltac clamp_cases :=
  repeat match goal with
  | |- context [Math_min ?a ?b] =>
      let x := fresh "mn" in
      destruct (Math_min_cases a b) as [[? ?] | [? ?]];
      remember (Math_min a b) as x
  | |- context [Qlt_bool ?a ?b] =>
      let E := fresh "E" in
      destruct (Qlt_bool a b) eqn:E;
      [apply Qlt_bool_true in E | apply Qlt_bool_false in E]
  | |- context [Math_max 0 ?a] =>
      let x := fresh "mx" in
      destruct (Qlt_le_dec a 0);
      [pose proof (Math_max_0_neg a) | pose proof (Math_max_0_nonneg a)];
      remember (Math_max 0 a) as x
  end.

(** ** One pass through the loop body *)

Section Body.

Variables (monthlyRate baseEMI : Q) (prepayments : gmap Z Q).

Local Abbreviation body := (loop_body monthlyRate baseEMI prepayments).
Local Abbreviation req := (requested prepayments).

Lemma body_month m B : month (body m B).1 = m.
Proof. unfold loop_body. destruct (Qlt_bool _ 0); reflexivity. Qed.

Lemma body_opening m B : openingBalance (body m B).1 = B.
Proof. unfold loop_body. destruct (Qlt_bool _ 0); reflexivity. Qed.

(** The balance carried to the next month is never negative and is
    what the row records. *)
Lemma body_closing m B :
  0 <= (body m B).2 /\ closingBalance (body m B).1 == (body m B).2.
Proof. unfold loop_body. clamp_cases; cbn; clamp_cases; lra. Qed.



End Body.

Lemma requested_empty m : requested ∅ m = 0.
Proof. unfold requested. rewrite lookup_empty. reflexivity. Qed.

(** The balance that a pass of the body carries to the next month. *)
Lemma body_carry r E (p : gmap Z Q) m B :
  (loop_body r E p m B).2 =
  (let principalPaid := Math_min (E - B * r) B in
   let principalPaid :=
     if Qlt_bool principalPaid 0 then 0 else principalPaid in
   let closingBalance := B - principalPaid - requested p m in
   if Qlt_bool closingBalance 0 then 0 else closingBalance).
Proof.
  unfold loop_body. cbv zeta.
  destruct (Qlt_bool (B - _ - _) 0); reflexivity.
Qed.

(** A lower balance and an extra payment leave a lower balance: the step
    without prepayment is monotone in the balance. *)
Lemma body_mono r E (p : gmap Z Q) m B B' :
  0 <= r -> 0 < B -> B <= B' -> 0 <= requested p m ->
  (loop_body r E p m B).2 <= (loop_body r E ∅ m B').2.
Proof.
  intros Hr HB HBB Hp. rewrite !body_carry. cbv zeta.
  rewrite requested_empty.
  assert (B * r <= B' * r) by nra.
  clamp_cases;
    repeat match goal with
    | H : context [Qlt_bool ?a ?b] |- _ =>
        let T := fresh "T" in
        destruct (Qlt_bool a b) eqn:T;
        [apply Qlt_bool_true in T | apply Qlt_bool_false in T]
    end; lra.
Qed.

(** ** calculateEMI *)

Lemma monthlyRateOf_nonneg a : 0 <= monthlyRateOf a.
Proof.
  unfold monthlyRateOf. destruct (Qlt_bool 0 a) eqn:E; [| lra].
  apply Qlt_bool_true in E.
  assert (a / 12 / 100 == a * (1 # 1200)) as -> by field. lra.
Qed.

Lemma guard_false (P : Q) (n : Z) :
  0 < P -> (0 < n)%Z -> Qle_bool P 0 || (n <=? 0)%Z = false.
Proof.
  intros HP Hn. apply orb_false_iff. split.
  - apply Qle_bool_false, HP.
  - apply Z.leb_gt, Hn.
Qed.

(** ** The loop *)

Lemma positive_nonneg p : positive_amounts p -> nonneg_amounts p.
Proof. intros H k v Hk. apply Qlt_le_weak, (H k v Hk). Qed.

Lemma requested_nonneg p m : nonneg_amounts p -> 0 <= requested p m.
Proof.
  intros H. unfold requested.
  destruct (p !! m) as [v |] eqn:Hv; cbn; [exact (H m v Hv) | lra].
Qed.

Section LoopFacts.

Variables (r E : Q) (n : Z) (p : gmap Z Q).

Local Abbreviation body := (loop_body r E p).
Local Abbreviation run := (loop r E n p).

Lemma loop_S fuel m B :
  run (S fuel) m B =
  if (m <=? n)%Z && Qlt_bool epsilon B
  then (body m B).1 :: run fuel (m + 1)%Z (body m B).2
  else [].
Proof.
  cbn [loop]. destruct (_ && _); [| reflexivity].
  destruct (loop_body r E p m B). reflexivity.
Qed.

(** Split on the loop test, turning it into propositions. *)
Ltac loop_test m B :=
  rewrite (loop_S _ m B);
  let G := fresh "G" in
  destruct ((m <=? n)%Z && Qlt_bool epsilon B) eqn:G;
  [ apply andb_true_iff in G as [?Hm ?HB];
    apply Z.leb_le in Hm; apply Qlt_bool_true in HB
  | apply andb_false_iff in G ].

(** Fuel beyond the number of months left changes nothing. *)
Lemma loop_fuel_enough fuel fuel' m B :
  (n - m + 1 <= Z.of_nat fuel)%Z -> (fuel <= fuel')%nat ->
  run fuel m B = run fuel' m B.
Proof.
  revert fuel' m B. induction fuel as [| fuel IH]; intros fuel' m B Hf Hle.
  - destruct fuel' as [| fuel']; [reflexivity |].
    cbn [loop]. assert ((m <=? n)%Z = false) as ->
      by (apply Z.leb_gt; lia). reflexivity.
  - destruct fuel' as [| fuel']; [lia |].
    rewrite !loop_S. destruct (_ && _); [| reflexivity].
    f_equal. apply IH; lia.
Qed.

Lemma loop_length fuel m B : (length (run fuel m B) <= fuel)%nat.
Proof.
  revert m B. induction fuel as [| fuel IH]; intros m B; [cbn; lia |].
  loop_test m B; cbn [length]; [| lia].
  specialize (IH (m + 1)%Z (body m B).2). lia.
Qed.

(** Invariant rule: a property of rows established by every pass of
    the body from a state that satisfies the invariant. *)
Lemma loop_Forall (Inv : Z -> Q -> Prop) (R : AmortizationData -> Prop) :
  (forall m B, Inv m B -> (m <= n)%Z -> epsilon < B ->
               R (body m B).1 /\ Inv (m + 1)%Z (body m B).2) ->
  forall fuel m B, Inv m B -> Forall R (run fuel m B).
Proof.
  intros Hstep. induction fuel as [| fuel IH]; intros m B HI; [constructor |].
  loop_test m B; [| constructor].
  destruct (Hstep m B HI Hm HB) as [HR HI'].
  constructor; [exact HR | apply IH, HI'].
Qed.

(** The first row, when there is one, opens at the running balance. *)
Lemma loop_head fuel m B row :
  run fuel m B !! 0%nat = Some row ->
  openingBalance row = B /\ epsilon < B.
Proof.
  destruct fuel as [| fuel]; [discriminate |].
  loop_test m B; [| discriminate].
  cbn. intros [= <-]. split; [apply body_opening | exact HB].
Qed.

Lemma loop_chained fuel m B i ra rb :
  run fuel m B !! i = Some ra -> run fuel m B !! S i = Some rb ->
  closingBalance ra == openingBalance rb.
Proof.
  revert m B i. induction fuel as [| fuel IH]; intros m B i; [discriminate |].
  loop_test m B; [| discriminate].
  destruct i as [| i]; cbn.
  - intros [= <-] Hb. apply loop_head in Hb as [-> _].
    apply body_closing.
  - apply IH.
Qed.

End LoopFacts.

(** Prepayments never lengthen a run: the balance of the run with
    prepayments stays below the balance of the run without. *)
Lemma loop_length_mono r E n (p : gmap Z Q) fuel m B B' :
  0 <= r -> nonneg_amounts p -> B <= B' ->
  (length (loop r E n p fuel m B) <= length (loop r E n ∅ fuel m B'))%nat.
Proof.
  intros Hr Hp. revert m B B'.
  induction fuel as [| fuel IH]; intros m B B' HBB; [cbn; lia |].
  rewrite !loop_S.
  destruct (Qlt_bool epsilon B) eqn:HB;
    [| rewrite andb_false_r; cbn; lia].
  apply Qlt_bool_true in HB.
  assert (Qlt_bool epsilon B' = true) as -> by (apply Qlt_bool_true; lra).
  destruct (m <=? n)%Z; cbn [andb length]; [| lia].
  apply le_n_S, IH, body_mono; try assumption.
  - unfold epsilon in HB. lra.
  - apply requested_nonneg, Hp.
Qed.

(** ** generateAmortizationSchedule *)

Lemma guard_true (P : Q) (n : Z) :
  P <= 0 \/ (n <= 0)%Z -> Qle_bool P 0 || (n <=? 0)%Z = true.
Proof.
  intros [H | H]; apply orb_true_iff; [left | right].
  - apply Qle_bool_iff, H.
  - apply Z.leb_le, H.
Qed.

Lemma guard_cases (P : Q) (n : Z) :
  (P <= 0 \/ (n <= 0)%Z) \/ (0 < P /\ (0 < n)%Z).
Proof.
  destruct (Qlt_le_dec 0 P); [| tauto].
  destruct (Z_lt_le_dec 0 n); tauto.
Qed.

Lemma schedule_empty P a n p :
  P <= 0 \/ (n <= 0)%Z -> generateAmortizationSchedule P a n p = [].
Proof.
  intros H. unfold generateAmortizationSchedule.
  rewrite guard_true by exact H. reflexivity.
Qed.

Lemma schedule_loop P a n p :
  0 < P -> (0 < n)%Z ->
  generateAmortizationSchedule P a n p =
  loop (monthlyRateOf a) (calculateEMI P a n) n p (Z.to_nat n) 1%Z P.
Proof.
  intros HP Hn. unfold generateAmortizationSchedule.
  rewrite guard_false by assumption. reflexivity.
Qed.

(** The schedule does not depend on the fuel: any amount of at least
    [tenureInMonths] gives the same rows. *)
Lemma schedule_fuel_enough P a n p fuel :
  0 < P -> (0 < n)%Z -> (Z.to_nat n <= fuel)%nat ->
  generateAmortizationSchedule P a n p =
  loop (monthlyRateOf a) (calculateEMI P a n) n p fuel 1%Z P.
Proof.
  intros HP Hn Hf. rewrite schedule_loop by assumption.
  apply loop_fuel_enough; lia.
Qed.

(** Every schedule is a run of the loop at a non-negative monthly
    rate, or empty. *)
Lemma schedule_Forall (R : AmortizationData -> Prop) P a n p :
  (forall m B, epsilon < B ->
     R (loop_body (monthlyRateOf a) (calculateEMI P a n) p m B).1) ->
  Forall R (generateAmortizationSchedule P a n p).
Proof.
  intros Hstep.
  destruct (guard_cases P n) as [H | [HP Hn]].
  - rewrite schedule_empty by exact H. constructor.
  - rewrite schedule_loop by assumption.
    apply loop_Forall with (Inv := fun _ _ => True); [| exact I].
    intros m B _ _ HB. split; [apply Hstep, HB | exact I].
Qed.

Lemma epsilon_pos B : epsilon < B -> 0 < B.
Proof. unfold epsilon. lra. Qed.

(** ** The claims *)


(** C5. In every schedule the closing balance of a row is the opening
    balance of the next row. *)
Theorem schedule_chained P a n (p : gmap Z Q) i ra rb :
  generateAmortizationSchedule P a n p !! i = Some ra ->
  generateAmortizationSchedule P a n p !! S i = Some rb ->
  closingBalance ra == openingBalance rb.
Proof.
  destruct (guard_cases P n) as [H | [HP Hn]].
  - rewrite schedule_empty by exact H. discriminate.
  - rewrite schedule_loop by assumption. apply loop_chained.
Qed.

(** C6. With positive prepayment amounts the schedule has at most as
    many rows as the schedule of the same loan without prepayments. *)
Theorem prepayments_never_lengthen P a n (p : gmap Z Q) :
  positive_amounts p ->
  (length (generateAmortizationSchedule P a n p) <=
   length (generateAmortizationSchedule P a n ∅))%nat.
Proof.
  intros Hp. destruct (guard_cases P n) as [H | [HP Hn]].
  - rewrite !schedule_empty by exact H. reflexivity.
  - rewrite !schedule_loop by assumption.
    apply loop_length_mono;
      [apply monthlyRateOf_nonneg | apply positive_nonneg, Hp | lra].
Qed.

(** C8. For principal <= 0 or tenure <= 0, whatever the rate and the
    prepayment map, calculateEMI returns 0 and the schedule is empty;
    both functions are total, so no error is raised. *)
Theorem nonpositive_inputs P a n (p : gmap Z Q) :
  P <= 0 \/ (n <= 0)%Z ->
  calculateEMI P a n = 0 /\ generateAmortizationSchedule P a n p = [].
Proof.
  intros H. split; [| apply schedule_empty, H].
  unfold calculateEMI. rewrite guard_true by exact H. reflexivity.
Qed.

(** C9. A negative annual rate gives the installment and the schedule of
    a zero rate, with zero interest in every row. *)
Theorem negative_rate_as_zero P a n (p : gmap Z Q) :
  a < 0 ->
  calculateEMI P a n = calculateEMI P 0 n /\
  generateAmortizationSchedule P a n p =
    generateAmortizationSchedule P 0 n p /\
  Forall (fun row => interest row == 0)
         (generateAmortizationSchedule P a n p).
Proof.
  intros Ha.
  assert (calculateEMI P a n = calculateEMI P 0 n) as HE.
  { unfold calculateEMI.
    assert (Qle_bool a 0 = true) as -> by (apply Qle_bool_iff; lra).
    reflexivity. }
  assert (monthlyRateOf a = 0) as Hr.
  { unfold monthlyRateOf.
    assert (Qlt_bool 0 a = false) as -> by (apply Qlt_bool_false; lra).
    reflexivity. }
  split; [exact HE | split].
  - unfold generateAmortizationSchedule. rewrite HE.
    fold (monthlyRateOf a). rewrite Hr. reflexivity.
  - apply schedule_Forall. intros m B HB. rewrite Hr.
    unfold loop_body. clamp_cases; cbn; clamp_cases; lra.
Qed.


(** ** Concrete loans *)

Example calculateEMI_rate_0 : calculateEMI 1200 0 12 == 100.
Proof. reflexivity. Qed.

(** 1000 at rate 0 over 4 months, 900 asked for in month 2: the
    schedule ends after two rows, and the second row records a
    prepayment of 500 only. *)
Example clamped_prepayment_rows :
  map (fun row => (month row, Qred (principal row), Qred (prepayment row),
                   Qred (closingBalance row)))
      (generateAmortizationSchedule 1000 0 4 ({[2%Z := 900%Q]} : gmap Z Q)) =
  [(1%Z, 250, 0, 750); (2%Z, 250, 500, 0)].
Proof. vm_compute. reflexivity. Qed.

(** ** The theorems at concrete loans *)

Lemma one_prepayment_positive (k : Z) (v : Q) :
  0 < v -> positive_amounts {[k := v]}.
Proof. intros H. apply map_Forall_singleton. exact H. Qed.


Lemma schedule_chained_witness :
  exists ra rb,
    generateAmortizationSchedule 1000 0 4 ∅ !! 0%nat = Some ra /\
    generateAmortizationSchedule 1000 0 4 ∅ !! 1%nat = Some rb /\
    closingBalance ra == openingBalance rb.
Proof.
  eexists. eexists.
  split; [vm_compute; reflexivity |].
  split; [vm_compute; reflexivity |].
  apply (schedule_chained 1000 0 4 ∅ 0); vm_compute; reflexivity.
Defined.

Lemma prepayments_never_lengthen_witness :
  positive_amounts ({[1%Z := 500%Q]} : gmap Z Q) /\
  (length (generateAmortizationSchedule 1000 12 3 ({[1%Z := 500%Q]} : gmap Z Q)) <=
   length (generateAmortizationSchedule 1000 12 3 ∅))%nat.
Proof.
  assert (positive_amounts ({[1%Z := 500%Q]} : gmap Z Q)) as H
    by (apply one_prepayment_positive; reflexivity).
  split; [exact H | exact (prepayments_never_lengthen 1000 12 3 _ H)].
Defined.

Lemma nonpositive_inputs_witness :
  calculateEMI 0 (17 # 2) 240 = 0 /\
  generateAmortizationSchedule 0 (17 # 2) 240 ({[1%Z := 500%Q]} : gmap Z Q) = [].
Proof.
  apply (nonpositive_inputs 0 (17 # 2) 240). left. vm_compute. discriminate.
Defined.

Lemma negative_rate_as_zero_witness :
  calculateEMI 1000 (-5) 3 = calculateEMI 1000 0 3 /\
  generateAmortizationSchedule 1000 (-5) 3 ({[1%Z := 500%Q]} : gmap Z Q) =
    generateAmortizationSchedule 1000 0 3 ({[1%Z := 500%Q]} : gmap Z Q) /\
  Forall (fun row => interest row == 0)
         (generateAmortizationSchedule 1000 (-5) 3 ({[1%Z := 500%Q]} : gmap Z Q)).
Proof. apply (negative_rate_as_zero 1000 (-5) 3). reflexivity. Defined.


(** ** Further properties of the schedule *)

Lemma Math_max_0_le x : 0 <= Math_max 0 x.
Proof. unfold Math_max. apply Q.le_max_l. Qed.

Lemma loop_months r E n (p : gmap Z Q) fuel m B i row :
  loop r E n p fuel m B !! i = Some row -> month row = (m + Z.of_nat i)%Z.
Proof.
  revert m B i. induction fuel as [| fuel IH]; intros m B i; [discriminate |].
  rewrite loop_S. destruct (_ && _); [| discriminate].
  destruct i as [| i].
  - cbn. intros [= <-]. rewrite body_month. lia.
  - cbn [lookup list_lookup]. intros H. apply IH in H. lia.
Qed.

(** The rows depend on the prepayment map only through the amounts
    asked for in the months the loop visits. *)
Lemma loop_ext r E n (p q : gmap Z Q) fuel m B :
  (forall k, (m <= k <= n)%Z -> requested p k = requested q k) ->
  loop r E n p fuel m B = loop r E n q fuel m B.
Proof.
  revert m B. induction fuel as [| fuel IH]; intros m B H; [reflexivity |].
  rewrite !loop_S. destruct (m <=? n)%Z eqn:Hm; [| reflexivity].
  apply Z.leb_le in Hm. destruct (Qlt_bool epsilon B); [| reflexivity].
  cbn [andb].
  assert (loop_body r E p m B = loop_body r E q m B) as ->
    by (unfold loop_body; rewrite (H m) by lia; reflexivity).
  f_equal. apply IH. intros k Hk. apply H. lia.
Qed.

(** X2. The schedule has at most [tenureInMonths] rows and the row at
    position [i] (from 0) is the row of month [i + 1]. *)
Theorem schedule_months P a n (p : gmap Z Q) i row :
  generateAmortizationSchedule P a n p !! i = Some row ->
  month row = (Z.of_nat i + 1)%Z /\ (Z.of_nat i < n)%Z /\
  (length (generateAmortizationSchedule P a n p) <= Z.to_nat n)%nat.
Proof.
  destruct (guard_cases P n) as [H | [HP Hn]].
  - rewrite schedule_empty by exact H. discriminate.
  - rewrite schedule_loop by assumption. intros Hi.
    pose proof (loop_length (monthlyRateOf a) (calculateEMI P a n) n p
                  (Z.to_nat n) 1%Z P) as Hlen.
    pose proof (lookup_lt_Some _ _ _ Hi) as Hlt.
    apply loop_months in Hi. repeat split; lia.
Qed.

(** X5. Two prepayment maps that ask for the same amount in every month
    from 1 to [tenureInMonths] give the same schedule: keys outside that
    range are never read, and an amount of 0 counts as no entry. *)
Theorem schedule_reads_months_in_range P a n (p q : gmap Z Q) :
  (forall k, (1 <= k <= n)%Z -> requested p k = requested q k) ->
  generateAmortizationSchedule P a n p = generateAmortizationSchedule P a n q.
Proof.
  intros H. unfold generateAmortizationSchedule.
  destruct (_ || _); [reflexivity |]. apply loop_ext, H.
Qed.

(** ** The totals of handleCalculate *)

Lemma foldl_add_acc (f : AmortizationData -> Q) a rows :
  foldl (fun acc curr => acc + f curr) a rows ==
  a + foldl (fun acc curr => acc + f curr) 0 rows.
Proof.
  revert a. induction rows as [| row rows IH]; intros a; cbn [foldl].
  - ring.
  - rewrite (IH (a + f row)), (IH (0 + f row)). ring.
Qed.

Lemma sum_interest_cons row rows :
  sum_interest (row :: rows) == interest row + sum_interest rows.
Proof. unfold sum_interest. cbn [foldl]. rewrite foldl_add_acc. ring. Qed.

Lemma sum_interest_nonneg rows :
  Forall row_nonneg rows -> 0 <= sum_interest rows.
Proof.
  induction 1 as [| row rows Hrow _ IH].
  - unfold sum_interest. cbn. lra.
  - rewrite sum_interest_cons. destruct Hrow as (_ & Hi & _). lra.
Qed.

Lemma loop_rows_nonneg r E n (p : gmap Z Q) fuel m B :
  Forall row_nonneg (loop r E n p fuel m B).
Proof.
  apply loop_Forall with (Inv := fun _ _ => True); [| exact I].
  intros m' B' _ _ HB. split; [| exact I]. unfold row_nonneg.
  rewrite body_opening. split; [exact HB |].
  unfold loop_body. destruct (Qlt_bool _ 0), (Qlt_bool _ 0); cbn;
    repeat split; apply Math_max_0_le.
Qed.

(** A run from a lower balance with prepayments charges no more
    interest than the run without. *)
Lemma loop_interest_mono r E n (p : gmap Z Q) fuel m B B' :
  0 <= r -> nonneg_amounts p -> B <= B' ->
  sum_interest (loop r E n p fuel m B) <=
  sum_interest (loop r E n ∅ fuel m B').
Proof.
  intros Hr Hp. revert m B B'.
  induction fuel as [| fuel IH]; intros m B B' HBB; [apply Qle_refl |].
  rewrite (loop_S r E n p).
  destruct ((m <=? n)%Z && Qlt_bool epsilon B) eqn:G.
  - apply andb_true_iff in G as [Hm HB]. apply Qlt_bool_true in HB.
    rewrite loop_S, Hm.
    assert (Qlt_bool epsilon B' = true) as -> by (apply Qlt_bool_true; lra).
    cbn [andb]. rewrite !sum_interest_cons.
    apply epsilon_pos in HB.
    pose proof (IH (m + 1)%Z _ _
      (body_mono r E p m B B' Hr HB HBB (requested_nonneg p m Hp))) as Hrest.
    assert (interest (loop_body r E p m B).1 <=
            interest (loop_body r E ∅ m B').1) as Hrow.
    { assert (B * r <= B' * r) by nra.
      unfold loop_body. destruct (Qlt_bool _ 0), (Qlt_bool _ 0),
        (Qlt_bool _ 0), (Qlt_bool _ 0); cbn; clamp_cases; lra. }
    lra.
  - apply sum_interest_nonneg, loop_rows_nonneg.
Qed.

(** X12. With positive prepayment amounts the total interest that
    handleCalculate reports is at most the total interest of the same
    loan without prepayments. *)
Theorem prepayments_save_interest P a n (p : gmap Z Q) :
  positive_amounts p ->
  sum_interest (generateAmortizationSchedule P a n p) <=
  sum_interest (generateAmortizationSchedule P a n ∅).
Proof.
  intros Hp. destruct (guard_cases P n) as [H | [HP Hn]].
  - rewrite !schedule_empty by exact H. apply Qle_refl.
  - rewrite !schedule_loop by assumption.
    apply loop_interest_mono;
      [apply monthlyRateOf_nonneg | apply positive_nonneg, Hp | lra].
Qed.

(** ** validateInputs and handleCalculate *)

Lemma set_error_empty cond key message (newErrors : gmap string string) :
  set_error cond key message newErrors = ∅ <-> cond = false /\ newErrors = ∅.
Proof.
  unfold set_error. destruct cond.
  - split; [intros H; exfalso; exact (insert_non_empty _ _ _ H) |].
    intros [H _]. discriminate.
  - tauto.
Qed.

Lemma validateInputs_conditions tenureUnit p r t :
  validateInputs tenureUnit p r t = true <->
  Qle_bool p 0 = false /\ Qlt_bool 100000000 p = false /\
  Qlt_bool r 0 = false /\ Qlt_bool 50 r = false /\
  Qle_bool t 0 = false /\
  match tenureUnit with years => Qlt_bool 50 t | months => false end = false /\
  match tenureUnit with months => Qlt_bool 600 t | years => false end = false.
Proof.
  unfold validateInputs. rewrite Nat.eqb_eq, map_size_empty_iff.
  unfold validation_errors. cbv zeta. rewrite !set_error_empty.
  intuition.
Qed.

(** X13. validateInputs accepts exactly a loan amount in (0, 100
    million], a rate in [0, 50], and a tenure above 0 of at most 50
    years or 600 months. *)
Theorem validateInputs_accepts tenureUnit p r t :
  validateInputs tenureUnit p r t = true <->
  (0 < p /\ p <= 100000000) /\ (0 <= r /\ r <= 50) /\ 0 < t /\
  t <= match tenureUnit with years => 50 | months => 600 end.
Proof.
  rewrite validateInputs_conditions.
  rewrite !Qle_bool_false, !Qlt_bool_false.
  destruct tenureUnit; rewrite ?Qlt_bool_false; intuition.
Qed.

Lemma Math_round_bounds x hi :
  0 <= x -> x <= inject_Z hi -> (0 <= Math_round x <= hi)%Z.
Proof.
  intros H0 Hhi. unfold Math_round. split.
  - change 0%Z with (Qfloor (1 # 2)). apply Qfloor_resp_le. lra.
  - apply Z.lt_succ_r. rewrite Zlt_Qlt.
    apply Qle_lt_trans with (x + (1 # 2)); [apply Qfloor_le |].
    unfold Z.succ. rewrite inject_Z_plus. change (inject_Z 1) with 1. lra.
Qed.

Lemma tenure_months_bounds tenureUnit p r t :
  validateInputs tenureUnit p r t = true ->
  (0 <= tenure_months tenureUnit t <= 600)%Z.
Proof.
  intros H. apply validateInputs_accepts in H as (_ & _ & Ht & Hmax).
  unfold tenure_months. destruct tenureUnit; apply Math_round_bounds;
    try lra; change (inject_Z 600) with 600; lra.
Qed.

Lemma schedule_nonempty P a n (p : gmap Z Q) :
  0 < P -> (0 < n)%Z ->
  Nat.eqb (length (generateAmortizationSchedule P a n p)) 0 =
  negb (Qlt_bool epsilon P).
Proof.
  intros HP Hn. rewrite schedule_loop by assumption.
  destruct (Z.to_nat n) as [| k] eqn:Hk; [lia |].
  rewrite loop_S.
  assert ((1 <=? n)%Z = true) as -> by (apply Z.leb_le; lia).
  cbn [andb]. destruct (Qlt_bool epsilon P); reflexivity.
Qed.

(** The branches of handleCalculate once validation has passed. *)
Lemma handleCalculate_valid tenureUnit p r t (pp : gmap Z Q) :
  validateInputs tenureUnit p r t = true ->
  handleCalculate tenureUnit p r t pp =
  let n := tenure_months tenureUnit t in
  if (n <=? 0)%Z || negb (Qlt_bool epsilon p) then Unchanged
  else
    let calculatedSchedule := generateAmortizationSchedule p r n pp in
    Shown (EMIDetails.mk (calculateEMI p r n)
                         (sum_interest calculatedSchedule)
                         (sum_totalPayment calculatedSchedule)
                         p (Some (length calculatedSchedule)))
          calculatedSchedule.
Proof.
  intros Hv. pose proof (tenure_months_bounds _ _ _ _ Hv) as Hn.
  pose proof (proj1 (validateInputs_accepts _ _ _ _) Hv) as ((Hp & _) & _).
  unfold handleCalculate. rewrite Hv. cbn [negb].
  apply validateInputs_conditions in Hv as (-> & -> & -> & -> & -> & _).
  cbn [orb]. cbv zeta.
  assert ((600 <? tenure_months tenureUnit t)%Z = false) as ->
    by (apply Z.ltb_ge; lia).
  rewrite orb_false_r.
  destruct (tenure_months tenureUnit t <=? 0)%Z eqn:Hz; [reflexivity |].
  apply Z.leb_gt in Hz. cbn [orb].
  rewrite schedule_nonempty by assumption.
  destruct (Qlt_bool epsilon p); reflexivity.
Qed.

(** X14. handleCalculate clears the display exactly when validateInputs
    rejects the inputs, and it never caps the loan amount or the rate:
    the guards of lines 100-118 cannot fire once validation has passed. *)
Theorem handleCalculate_dead_guards tenureUnit p r t (pp : gmap Z Q) :
  handleCalculate tenureUnit p r t pp <> LoanAmountCapped /\
  handleCalculate tenureUnit p r t pp <> InterestRateCapped /\
  (handleCalculate tenureUnit p r t pp = Cleared <->
   validateInputs tenureUnit p r t = false).
Proof.
  destruct (validateInputs tenureUnit p r t) eqn:Hv.
  - rewrite (handleCalculate_valid _ _ _ _ pp Hv). cbv zeta.
    destruct (_ || _); repeat split; try discriminate.
  - unfold handleCalculate. rewrite Hv. cbn [negb].
    repeat split; discriminate.
Qed.

(** X15. When validateInputs accepts, the tenure in months that
    handleCalculate computes lies in [0, 600], and new details are
    shown if and only if that tenure is at least 1 and the loan amount
    exceeds 0.01; otherwise the display is left as it was. *)
Theorem handleCalculate_shows tenureUnit p r t (pp : gmap Z Q) :
  validateInputs tenureUnit p r t = true ->
  let n := tenure_months tenureUnit t in
  (0 <= n <= 600)%Z /\
  (is_Shown (handleCalculate tenureUnit p r t pp) = true <->
   (1 <= n)%Z /\ epsilon < p) /\
  (is_Shown (handleCalculate tenureUnit p r t pp) = false ->
   handleCalculate tenureUnit p r t pp = Unchanged).
Proof.
  intros Hv n. subst n. split; [eapply tenure_months_bounds, Hv |].
  rewrite (handleCalculate_valid _ _ _ _ pp Hv). cbv zeta.
  destruct (tenure_months tenureUnit t <=? 0)%Z eqn:Hz;
    [apply Z.leb_le in Hz | apply Z.leb_gt in Hz]; cbn [orb].
  - split; [| reflexivity]. cbn. split; [discriminate | lia].
  - destruct (Qlt_bool epsilon p) eqn:HP;
      [apply Qlt_bool_true in HP | apply Qlt_bool_false in HP]; cbn.
    + split; [| discriminate]. split; [intros _; split; [lia | exact HP] |].
      reflexivity.
    + split; [| reflexivity].
      split; [discriminate | intros [_ H]; exfalso; lra].
Qed.

(** ** handlePrepaymentChange *)

Lemma handlePrepaymentChange_positive m newAmount (prev : gmap Z Q) :
  positive_amounts prev ->
  positive_amounts (handlePrepaymentChange m newAmount prev).
Proof.
  intros H. unfold handlePrepaymentChange, positive_amounts.
  destruct newAmount as [amount |]; [| apply map_Forall_delete, H].
  destruct (Qlt_bool 0 amount) eqn:E; [| apply map_Forall_delete, H].
  apply Qlt_bool_true in E. apply map_Forall_insert_2; assumption.
Qed.

(** X17. Whatever is typed into the prepayment fields, the map that
    results from the edits holds positive amounts only: the caller
    keeps the condition under which the rows balance. *)
Theorem prepayments_after_positive edits :
  positive_amounts (prepayments_after edits).
Proof.
  unfold prepayments_after.
  assert (positive_amounts (∅ : gmap Z Q)) as H by apply map_Forall_empty.
  revert H. generalize (∅ : gmap Z Q).
  induction edits as [| [m a] edits IH]; intros prev H; [exact H |].
  cbn [foldl]. apply IH, handlePrepaymentChange_positive, H.
Qed.

(** X18. After an edit of month [m] the amount asked for in month [m]
    is the amount entered when it is a positive number and 0 otherwise
    (not a number, zero or negative); every other month keeps its
    amount. *)
Theorem handlePrepaymentChange_requested m newAmount (prev : gmap Z Q) k :
  requested (handlePrepaymentChange m newAmount prev) k =
  if decide (k = m) then
    match newAmount with
    | Some amount => if Qlt_bool 0 amount then amount else 0
    | None => 0
    end
  else requested prev k.
Proof.
  unfold requested, handlePrepaymentChange.
  destruct (decide (k = m)) as [-> | Hne].
  - destruct newAmount as [amount |];
      [destruct (Qlt_bool 0 amount) |];
      rewrite ?lookup_insert_eq, ?lookup_delete_eq; reflexivity.
  - destruct newAmount as [amount |];
      [destruct (Qlt_bool 0 amount) |];
      rewrite ?lookup_insert_ne, ?lookup_delete_ne by congruence;
      reflexivity.
Qed.

(** ** chartData *)

Lemma div_step_multiple (i s : nat) :
  (0 < s)%nat ->
  ((i + s) / s = (i + s - 1) / s + (if (i mod s =? 0)%nat then 1 else 0))%nat.
Proof.
  intros Hs.
  pose proof (Nat.div_mod_eq i s) as Hi.
  pose proof (Nat.mod_upper_bound i s ltac:(lia)) as Hb.
  replace (i + s)%nat with (i mod s + (i / s + 1) * s)%nat at 1 by lia.
  rewrite Nat.div_add, (Nat.div_small (i mod s) s) by lia.
  destruct (i mod s =? 0)%nat eqn:E;
    [apply Nat.eqb_eq in E | apply Nat.eqb_neq in E].
  - replace (i + s - 1)%nat with (s - 1 + (i / s) * s)%nat by lia.
    rewrite Nat.div_add, (Nat.div_small (s - 1) s) by lia. lia.
  - replace (i + s - 1)%nat with (i mod s - 1 + (i / s + 1) * s)%nat by lia.
    rewrite Nat.div_add, (Nat.div_small (i mod s - 1) s) by lia. lia.
Qed.

(** Number of positions in [index, index + length l) kept by the test
    [position mod s = 0]. *)
Lemma filter_index_length {A : Type} (s index : nat) (l : list A) :
  (0 < s)%nat ->
  (length (filter_index (fun i => (i mod s =? 0)%nat) index l)
   + (index + s - 1) / s = (index + length l + s - 1) / s)%nat.
Proof.
  intros Hs. revert index.
  induction l as [| x l IH]; intros index; cbn [filter_index length].
  - rewrite Nat.add_0_r. reflexivity.
  - pose proof (div_step_multiple index s Hs) as Hd.
    specialize (IH (S index)).
    replace (S index + s - 1)%nat with (index + s)%nat in IH by lia.
    replace (S index + length l + s - 1)%nat
      with (index + S (length l) + s - 1)%nat in IH by lia.
    destruct (index mod s =? 0)%nat; cbn [length]; lia.
Qed.

Lemma filter_index_sublist {A : Type} (keep : nat -> bool) index (l : list A) :
  filter_index keep index l `sublist_of` l.
Proof.
  revert index. induction l as [| x l IH]; intros index; cbn [filter_index].
  - constructor.
  - destruct (keep index); [apply sublist_skip | apply sublist_cons]; apply IH.
Qed.

Lemma filter_index_head {A : Type} (keep : nat -> bool) index (x : A) l :
  keep index = true ->
  head (filter_index keep index (x :: l)) = Some x.
Proof. intros H. cbn [filter_index]. rewrite H. reflexivity. Qed.

(** X19. The chart has at most 240 points, taken from the rows of the
    schedule in order and starting with its first row; a schedule of at
    most 240 rows is charted row by row, and the chart is empty only
    for an empty schedule. *)
Theorem chartData_bounded (schedule : list AmortizationData) :
  (length (chartData schedule) <= maxDataPoints)%nat /\
  (exists dataToShow,
     dataToShow `sublist_of` schedule /\
     chartData schedule = map chart_point dataToShow) /\
  head (chartData schedule) = chart_point <$> head schedule /\
  ((length schedule <= maxDataPoints)%nat ->
   chartData schedule = map chart_point schedule) /\
  (chartData schedule = [] <-> schedule = []).
Proof.
  unfold chartData, maxDataPoints.
  destruct schedule as [| row rows].
  { cbn. repeat split; try lia; try reflexivity.
    exists []. split; [constructor | reflexivity]. }
  cbn [length Nat.eqb].
  destruct (240 <? S (length rows))%nat eqn:Hbig;
    [apply Nat.ltb_lt in Hbig | apply Nat.ltb_ge in Hbig].
  - set (s := ceil_div (S (length rows)) 240).
    assert (2 <= s)%nat as Hs.
    { unfold s, ceil_div. apply Nat.div_le_lower_bound; lia. }
    assert (S (length rows) <= 240 * s)%nat as Hcover.
    { unfold s, ceil_div.
      pose proof (Nat.div_mod_eq (S (length rows) + 240 - 1) 240) as Hd.
      pose proof (Nat.mod_upper_bound (S (length rows) + 240 - 1) 240
                    ltac:(lia)) as Hm.
      lia. }
    pose proof (filter_index_length s 0 (row :: rows) ltac:(lia)) as Hlen.
    rewrite (Nat.div_small (0 + s - 1) s) in Hlen by lia.
    cbn [length] in Hlen. rewrite Nat.add_0_r, Nat.add_0_l in Hlen.
    assert ((0 mod s =? 0)%nat = true) as H0
      by (rewrite Nat.Div0.mod_0_l; reflexivity).
    repeat split.
    + rewrite length_map, Hlen.
      apply Nat.lt_succ_r, Nat.Div0.div_lt_upper_bound. lia.
    + eexists. split; [apply filter_index_sublist | reflexivity].
    + cbn [filter_index]. rewrite H0. reflexivity.
    + intros Hle. lia.
    + cbn [filter_index]. rewrite H0. discriminate.
    + discriminate.
  - repeat split.
    + rewrite length_map. cbn [length]. lia.
    + exists (row :: rows). split; reflexivity.
    + discriminate.
    + discriminate.
Qed.


(** ** The further properties at concrete inputs *)

Lemma schedule_months_witness :
  exists row,
    generateAmortizationSchedule 1000 0 4 ∅ !! 2%nat = Some row /\
    month row = (Z.of_nat 2 + 1)%Z /\ (Z.of_nat 2 < 4)%Z /\
    (length (generateAmortizationSchedule 1000 0 4 ∅) <= Z.to_nat 4)%nat.
Proof.
  destruct (generateAmortizationSchedule 1000 0 4 ∅ !! 2%nat)
    as [row |] eqn:H; [| vm_compute in H; discriminate].
  exists row. split; [reflexivity |].
  exact (schedule_months 1000 0 4 ∅ 2 row H).
Defined.

(** A prepayment entered for month 7 of a 3-month loan is never read. *)
Lemma schedule_reads_months_in_range_witness :
  generateAmortizationSchedule 1000 12 3 ({[7%Z := 500%Q]} : gmap Z Q) =
  generateAmortizationSchedule 1000 12 3 ∅.
Proof.
  apply (schedule_reads_months_in_range 1000 12 3).
  intros k Hk. unfold requested.
  rewrite lookup_singleton_ne by lia. rewrite lookup_empty. reflexivity.
Defined.

Lemma prepayments_save_interest_witness :
  sum_interest (generateAmortizationSchedule 1000 12 3
                  ({[1%Z := 500%Q]} : gmap Z Q)) <=
  sum_interest (generateAmortizationSchedule 1000 12 3 ∅).
Proof.
  apply (prepayments_save_interest 1000 12 3).
  apply one_prepayment_positive. reflexivity.
Defined.

(** A quarter of a year at 12% on 1000: three months. *)
Lemma handleCalculate_shows_witness :
  let n := tenure_months years (1 # 4) in
  (0 <= n <= 600)%Z /\
  (is_Shown (handleCalculate years 1000 12 (1 # 4) ∅) = true <->
   (1 <= n)%Z /\ epsilon < 1000) /\
  (is_Shown (handleCalculate years 1000 12 (1 # 4) ∅) = false ->
   handleCalculate years 1000 12 (1 # 4) ∅ = Unchanged).
Proof.
  apply (handleCalculate_shows years 1000 12 (1 # 4) ∅).
  vm_compute. reflexivity.
Defined.

(** ** Where the schedule ends *)

Lemma loop_ends r E n (p : gmap Z Q) fuel m B i row :
  loop r E n p fuel m B !! i = Some row ->
  closingBalance row <= epsilon ->
  length (loop r E n p fuel m B) = S i.
Proof.
  revert m B i. induction fuel as [| fuel IH]; intros m B i; [discriminate |].
  rewrite loop_S. destruct (_ && _); [| discriminate].
  destruct i as [| i]; cbn [lookup list_lookup length].
  - intros [= <-] Hc. f_equal.
    rewrite (proj2 (body_closing r E p m B)) in Hc.
    destruct fuel as [| fuel]; [reflexivity |]. rewrite loop_S.
    assert (Qlt_bool epsilon (loop_body r E p m B).2 = false) as ->
      by (apply Qlt_bool_false, Hc).
    rewrite andb_false_r. reflexivity.
  - intros Hi Hc. f_equal. exact (IH _ _ _ Hi Hc).
Qed.

(** X20. A row whose closing balance is at most 0.01 is the last row of
    the schedule, so every row but the last closes above 0.01. *)
Theorem schedule_ends_at_payoff P a n (p : gmap Z Q) i row :
  generateAmortizationSchedule P a n p !! i = Some row ->
  (closingBalance row <= epsilon ->
   length (generateAmortizationSchedule P a n p) = S i) /\
  ((S i < length (generateAmortizationSchedule P a n p))%nat ->
   epsilon < closingBalance row).
Proof.
  intros Hi.
  assert (closingBalance row <= epsilon ->
          length (generateAmortizationSchedule P a n p) = S i) as Hend.
  { revert Hi. destruct (guard_cases P n) as [H | [HP Hn]].
    - rewrite schedule_empty by exact H. discriminate.
    - rewrite schedule_loop by assumption. apply loop_ends. }
  split; [exact Hend |].
  intros Hlt. destruct (Qlt_le_dec epsilon (closingBalance row)) as [H | H];
    [exact H | apply Hend in H; lia].
Qed.

Lemma schedule_ends_at_payoff_witness :
  exists row,
    generateAmortizationSchedule 1000 0 4 ({[2%Z := 900%Q]} : gmap Z Q)
      !! 1%nat = Some row /\
    (closingBalance row <= epsilon ->
     length (generateAmortizationSchedule 1000 0 4
               ({[2%Z := 900%Q]} : gmap Z Q)) = 2%nat) /\
    ((2 < length (generateAmortizationSchedule 1000 0 4
                    ({[2%Z := 900%Q]} : gmap Z Q)))%nat ->
     epsilon < closingBalance row).
Proof.
  destruct (generateAmortizationSchedule 1000 0 4
              ({[2%Z := 900%Q]} : gmap Z Q) !! 1%nat)
    as [row |] eqn:H; [| vm_compute in H; discriminate].
  exists row. split; [reflexivity |].
  exact (schedule_ends_at_payoff 1000 0 4 _ 1 row H).
Defined.

(** ** Doubles: comparisons and clamps *)

Lemma double_epsilon_value :
  Double.epsilon = S754_finite false 5764607523034235 (-59).
Proof. vm_compute. reflexivity. Qed.



Lemma double_above_epsilon B :
  SFltb Double.epsilon B = true -> SFltb Double.zero B = true.
Proof.
  rewrite double_epsilon_value.
  destruct B as [[] | [] | | [] m e]; cbn; congruence.
Qed.

Lemma double_max0_not_neg z :
  SFltb (Double.Math_max Double.zero z) Double.zero = false.
Proof. destruct z as [[] | [] | | [] m e]; reflexivity. Qed.

Lemma double_max0_pos z :
  SFltb Double.zero z = true -> Double.Math_max Double.zero z = z.
Proof. destruct z as [[] | [] | | [] m e]; cbn; congruence. Qed.

Lemma double_max0_same z :
  SFltb z Double.zero = false ->
  Double.same_number (Double.Math_max Double.zero z) z.
Proof.
  destruct z as [s | [] | | [] m e]; cbn; try discriminate; intros _;
    try (left; reflexivity).
  right. exists false, s. destruct s; split; reflexivity.
Qed.

(** The sign of a zero subtrahend does not matter under a positive
    minuend: replacing [principalPaid] by the recorded
    [Math.max(0, principalPaid)] leaves the difference unchanged. *)
Lemma double_sub_max0 B z :
  SFltb Double.zero B = true -> SFltb z Double.zero = false ->
  Double.sub B (Double.Math_max Double.zero z) = Double.sub B z.
Proof.
  destruct B as [[] | [] | | [] mB eB]; cbn; try discriminate; intros _;
    destruct z as [[] | [] | | [] m e]; cbn; try discriminate; reflexivity.
Qed.


Lemma double_requested_cases (p : gmap Z spec_float) m :
  Double.positive_amounts p ->
  SFltb Double.zero (Double.requested p m) = true \/
  Double.requested p m = Double.zero.
Proof.
  intros Hp. unfold Double.requested.
  destruct (p !! m) as [v |] eqn:Hv; [| right; reflexivity].
  specialize (Hp m v Hv). cbn in Hp.
  destruct v as [[] | [] | | [] mv ev]; cbn in *; try discriminate;
    left; reflexivity.
Qed.

Lemma double_max0_requested z :
  SFltb Double.zero z = true \/ z = Double.zero ->
  Double.Math_max Double.zero z = z.
Proof. intros [H | ->]; [apply double_max0_pos, H | reflexivity]. Qed.

(** ** Doubles: one pass through the loop body *)

Section DoubleBody.

Variables (r E : spec_float) (p : gmap Z spec_float).

Lemma double_body_month m B : Double.month (Double.loop_body r E p m B).1 = m.
Proof. unfold Double.loop_body. destruct (SFltb _ Double.zero); reflexivity. Qed.

Lemma double_body_opening m B :
  Double.openingBalance (Double.loop_body r E p m B).1 = B.
Proof. unfold Double.loop_body. destruct (SFltb _ Double.zero); reflexivity. Qed.


Lemma double_body_nonneg m B :
  SFltb Double.epsilon B = true ->
  Double.row_nonneg (Double.loop_body r E p m B).1.
Proof.
  intros HB. unfold Double.row_nonneg. rewrite double_body_opening.
  split; [exact HB |].
  unfold Double.loop_body. destruct (SFltb (Double.sub _ _) Double.zero);
    cbn; repeat split; apply double_max0_not_neg.
Qed.

Lemma double_body_balanced m B :
  Double.positive_amounts p -> SFltb Double.epsilon B = true ->
  Double.row_balanced p (Double.loop_body r E p m B).1.
Proof.
  intros Hp HB. apply double_above_epsilon in HB.
  pose proof (double_requested_cases p m Hp) as Hq.
  unfold Double.row_balanced. rewrite double_body_month, double_body_opening.
  unfold Double.loop_body.
  set (paid := if SFltb (Double.Math_min _ B) Double.zero
               then Double.zero else Double.Math_min _ B).
  assert (SFltb paid Double.zero = false) as Hpaid.
  { subst paid. destruct (SFltb (Double.Math_min _ B) Double.zero) eqn:Hm;
      [reflexivity | exact Hm]. }
  pose proof (double_sub_max0 B paid HB Hpaid) as Hroom.
  destruct (SFltb (Double.sub (Double.sub B paid) _) Double.zero) eqn:Hc;
    cbn [fst Double.closingBalance Double.principal Double.prepayment];
    rewrite Hroom, Hc.
  - split; [reflexivity |]. split; [discriminate |].
    intros _. split; reflexivity.
  - split; [apply double_max0_not_neg |]. split; [| discriminate].
    intros _. rewrite (double_max0_requested _ Hq).
    split; [reflexivity | apply double_max0_same, Hc].
Qed.


End DoubleBody.

(** ** Doubles: the loop *)

Section DoubleLoop.

Variables (r E : spec_float) (n : Z) (p : gmap Z spec_float).

Lemma double_loop_S fuel m B :
  Double.loop r E n p (S fuel) m B =
  if (m <=? n)%Z && SFltb Double.epsilon B
  then (Double.loop_body r E p m B).1
         :: Double.loop r E n p fuel (m + 1)%Z (Double.loop_body r E p m B).2
  else [].
Proof.
  cbn [Double.loop]. destruct (_ && _); [| reflexivity].
  destruct (Double.loop_body r E p m B). reflexivity.
Qed.


Lemma double_loop_Forall (R : Double.AmortizationData -> Prop) :
  (forall m B, SFltb Double.epsilon B = true ->
               R (Double.loop_body r E p m B).1) ->
  forall fuel m B, Forall R (Double.loop r E n p fuel m B).
Proof.
  intros Hstep. induction fuel as [| fuel IH]; intros m B; [constructor |].
  rewrite double_loop_S.
  destruct ((m <=? n)%Z && SFltb Double.epsilon B) eqn:G; [| constructor].
  apply andb_true_iff in G as [_ G].
  constructor; [apply Hstep, G | apply IH].
Qed.




End DoubleLoop.

Lemma double_schedule_Forall pow (R : Double.AmortizationData -> Prop)
    P a n (p : gmap Z spec_float) :
  (forall m B, SFltb Double.epsilon B = true ->
     R (Double.loop_body (Double.monthlyRateOf a)
          (Double.calculateEMI pow P a n) p m B).1) ->
  Forall R (Double.generateAmortizationSchedule pow P a n p).
Proof.
  intros Hstep. unfold Double.generateAmortizationSchedule.
  destruct (_ || _); [constructor |].
  apply double_loop_Forall, Hstep.
Qed.

(** ** Doubles: the claims that depend on rounding *)

(** A clamped row is not balanced exactly: 1000 at rate 0 over 3 months
    with 5000 asked for in month 1 records prepayment 666.666666666667
    and closing balance 0, while openingBalance - principal - prepayment
    is -2^-42. *)
Lemma double_clamped_row_unbalanced :
  Double.positive_amounts {[1%Z := Double.of_Z 5000]} /\
  exists row,
    Double.generateAmortizationSchedule Double.pow_mul
      (Double.of_Z 1000) Double.zero 3 {[1%Z := Double.of_Z 5000]}
      !! 0%nat = Some row /\
    Double.closingBalance row = Double.zero /\
    Double.sub (Double.sub (Double.openingBalance row) (Double.principal row))
               (Double.prepayment row)
      = S754_finite true 4503599627370496 (-94).
Proof.
  split; [apply map_Forall_singleton; reflexivity |].
  eexists. split; [vm_compute; reflexivity |].
  split; vm_compute; reflexivity.
Qed.

(** C1, amended. With positive prepayment amounts, in every row the
    closing balance is never negative; in a row whose prepayment is not
    clamped the recorded prepayment is the amount asked for and
    closingBalance = openingBalance - principal - prepayment exactly on
    the recorded values; in a clamped row the closing balance is 0 and
    the recorded prepayment is the rounded asked + (room - asked), where
    room = openingBalance - principal. *)
Theorem double_rows_balanced pow P a n (p : gmap Z spec_float) :
  Double.positive_amounts p ->
  Forall (Double.row_balanced p)
         (Double.generateAmortizationSchedule pow P a n p).
Proof.
  intros Hp. apply double_schedule_Forall. intros m B HB.
  apply double_body_balanced; assumption.
Qed.





(** X1. Whatever the inputs and whatever Math.pow returns, every row
    opens above 0.01 and none of its recorded interest, principal,
    prepayment, total payment and closing balance is negative. *)
Theorem double_rows_nonneg pow P a n (p : gmap Z spec_float) :
  Forall Double.row_nonneg (Double.generateAmortizationSchedule pow P a n p).
Proof.
  apply double_schedule_Forall. intros m B HB.
  apply double_body_nonneg, HB.
Qed.

(** ** Doubles: concrete loans *)

(** A rate of 1e-13: 1 + monthlyRate rounds to 1, the divisor is 0 and
    the installment is Infinity. *)
Example double_calculateEMI_tiny_rate :
  Double.calculateEMI Double.pow_mul (Double.of_Z 1000)
    (Double.div (Double.of_Z 1) (Double.of_Z 10000000000000)) 3
  = S754_infinity false.
Proof. vm_compute. reflexivity. Qed.

(** 0.1 at rate 0 over 10 months runs all 10 rows: the balance entering
    month 10 is just above 0.01 in doubles. *)
Example double_ten_rows :
  length (Double.generateAmortizationSchedule Double.pow_mul
            (Double.div (Double.of_Z 1) (Double.of_Z 10)) Double.zero 10 ∅)
  = 10%nat.
Proof. vm_compute. reflexivity. Qed.

(** At 1200% over 60 months the schedule runs all 60 rows and still
    closes at the full principal. *)
Example double_full_run_unpaid :
  let rows := Double.generateAmortizationSchedule Double.pow_mul
                (Double.of_Z 1000) (Double.of_Z 1200) 60 ∅ in
  length rows = 60%nat /\
  Double.last_closing (Double.of_Z 1000) rows = Double.of_Z 1000.
Proof. split; vm_compute; reflexivity. Qed.

(** 100000 at 84% over 600 months, with [Math.pow(1.07, 600)]
    returning the double 6669398033592480 * 2^6: the installment is
    7000, the first month's interest 7000.000000000001, so the test
    [principalPaid < 0] is true and every one of the 600 rows records a
    principal of 0. *)
Example double_clamp_branch_taken :
  let pow := fun (_ : spec_float) (_ : Z) =>
               S754_finite false 6669398033592480 6 in
  let E := Double.calculateEMI pow (Double.of_Z 100000) (Double.of_Z 84) 600 in
  let r := Double.monthlyRateOf (Double.of_Z 84) in
  let rows := Double.generateAmortizationSchedule pow
                (Double.of_Z 100000) (Double.of_Z 84) 600 ∅ in
  length rows = 600%nat /\
  forallb (fun row =>
             SFltb (Double.Math_min
                      (Double.sub E (Double.mul (Double.openingBalance row) r))
                      (Double.openingBalance row)) Double.zero
             && Double.is_falsy (Double.principal row)) rows = true.
Proof. split; vm_compute; reflexivity. Qed.

Lemma double_rows_balanced_witness :
  Forall (Double.row_balanced {[1%Z := Double.of_Z 5000]})
         (Double.generateAmortizationSchedule Double.pow_mul
            (Double.of_Z 1000) Double.zero 3 {[1%Z := Double.of_Z 5000]}).
Proof.
  apply (double_rows_balanced Double.pow_mul (Double.of_Z 1000) Double.zero 3).
  apply map_Forall_singleton. reflexivity.
Defined.


